(** * DrinkCatalog: the request handlers of [app.py]

    A shallow embedding of the Flask handlers of [app.py] over an explicit
    model of the ORM session and of the [drink_service] table.

    Modelling choices, fixed once for the whole development:
    - strings are sequences of one-byte characters; case folding and the
      digit and blank classes are the ASCII ones;
    - Python's [int(str)] and [float(str)] are written out on that
      alphabet; a finite float is kept as an exact rational (binary
      rounding is not part of the model), [inf] and [nan] are kept apart;
    - the table is the list of its rows in rowid order; a new row takes
      the rowid after the largest one in use;
    - the session holds the objects it loaded, added or deleted; nothing
      reaches the table before [commit], and the end of the request drops
      whatever the session still holds;
    - the store keeps the values it is handed and [commit] succeeds. *)

From Stdlib Require Import ZArith QArith List String Ascii Bool Lia.
From Stdlib Require Import Sorted.
Import ListNotations.

Local Open Scope string_scope.
Local Open Scope Z_scope.
Local Open Scope list_scope.

Set Implicit Arguments.

(** ** Python builtins on strings *)

Module Py.

(** The exceptions the handlers can meet. *)
Inductive exn : Type :=
| ValueError
| TypeError.

(** [str.lower] restricted to ASCII. *)
Definition lower_ascii (c : ascii) : ascii :=
  let n := nat_of_ascii c in
  if ((65 <=? n) && (n <=? 90))%nat then ascii_of_nat (n + 32) else c.

Fixpoint lower (s : string) : string :=
  match s with
  | EmptyString => EmptyString
  | String c s' => String (lower_ascii c) (lower s')
  end.

(** The blanks that [int] and [float] strip from both ends. *)
Definition is_space (c : ascii) : bool :=
  let n := nat_of_ascii c in
  (((9 <=? n) && (n <=? 13)) || ((28 <=? n) && (n <=? 32)))%nat.

Definition is_digit (c : ascii) : bool :=
  let n := nat_of_ascii c in ((48 <=? n) && (n <=? 57))%nat.

Definition digit_val (c : ascii) : Z := Z.of_nat (nat_of_ascii c) - 48.

Fixpoint lstrip (s : list ascii) : list ascii :=
  match s with
  | c :: s' => if is_space c then lstrip s' else s
  | [] => []
  end.

Definition strip (s : list ascii) : list ascii :=
  rev (lstrip (rev (lstrip s))).

(** An optional sign in front of a literal: [true] for a minus. *)
Definition take_sign (s : list ascii) : bool * list ascii :=
  match s with
  | "-"%char :: s' => (true, s')
  | "+"%char :: s' => (false, s')
  | _ => (false, s)
  end.

(** The longest prefix made of digits and underscores, and what follows. *)
Fixpoint span_digits (s : list ascii) : list ascii * list ascii :=
  match s with
  | c :: s' =>
      if is_digit c || Ascii.eqb c "_"%char
      then let (run, rest) := span_digits s' in (c :: run, rest)
      else ([], s)
  | [] => ([], [])
  end.

(** [digitpart ::= digit (["_"] digit)*]: the value read so far and the
    number of digits, or nothing when an underscore is misplaced.
    [after_digit] tells whether the previous character was a digit. *)
Fixpoint digitpart_from (after_digit : bool) (acc : Z) (n : nat)
         (s : list ascii) : option (Z * nat) :=
  match s with
  | [] => if after_digit then Some (acc, n) else None
  | c :: s' =>
      if is_digit c then digitpart_from true (10 * acc + digit_val c) (S n) s'
      else if after_digit && Ascii.eqb c "_"%char
           then digitpart_from false acc n s'
      else None
  end.

Definition digitpart (s : list ascii) : option (Z * nat) :=
  digitpart_from false 0 0%nat s.

Definition apply_sign (neg : bool) (z : Z) : Z := if neg then - z else z.

(** [int(s)] for a string [s], base ten. *)
Definition int_of_string (s : string) : option Z :=
  let (neg, body) := take_sign (strip (list_ascii_of_string s)) in
  match digitpart body with
  | Some (v, _) => Some (apply_sign neg v)
  | None => None
  end.

(** [int(v)] for what [request.form.get] gives: [None] is a [TypeError],
    a string that is no integer literal a [ValueError]. *)
Definition int (v : option string) : exn + Z :=
  match v with
  | None => inl TypeError
  | Some s =>
      match int_of_string s with
      | Some z => inr z
      | None => inl ValueError
      end
  end.

(** Python floats: finite values as exact rationals, the infinities, nan. *)
Inductive pyfloat : Type :=
| FFin (q : Q)
| FInf (neg : bool)
| FNaN.

Definition pow10 (e : Z) : Q :=
  if (0 <=? e)%Z then inject_Z (10 ^ e) else Qinv (inject_Z (10 ^ (- e))).

Definition finite (neg : bool) (mant : Z) (e : Z) : pyfloat :=
  FFin (Qred (Qmult (inject_Z (apply_sign neg mant)) (pow10 e))).

(** The optional exponent of a float literal; [Some 0] when there is none. *)
Definition exponent (s : list ascii) : option Z :=
  match s with
  | [] => Some 0
  | c :: s' =>
      if Ascii.eqb c "e"%char || Ascii.eqb c "E"%char then
        let (neg, ds) := take_sign s' in
        match digitpart ds with
        | Some (v, _) => Some (apply_sign neg v)
        | None => None
        end
      else None
  end.

(** [number ::= [digitpart] "." digitpart | digitpart ["."]], then the
    exponent. *)
Definition floatnumber (neg : bool) (s : list ascii) : option pyfloat :=
  let (ip, rest) := span_digits s in
  match rest with
  | "."%char :: rest' =>
      let (fp, rest'') := span_digits rest' in
      match ip, fp with
      | [], [] => None
      | _, _ =>
          let iv := match ip with [] => Some (0, 0%nat) | _ => digitpart ip end in
          let fv := match fp with [] => Some (0, 0%nat) | _ => digitpart fp end in
          match iv, fv, exponent rest'' with
          | Some (i, _), Some (f, n), Some e =>
              Some (finite neg (i * 10 ^ Z.of_nat n + f) (e - Z.of_nat n))
          | _, _, _ => None
          end
      end
  | _ =>
      match digitpart ip, exponent rest with
      | Some (i, _), Some e => Some (finite neg i e)
      | _, _ => None
      end
  end.

(** [float(s)] for a string [s]. *)
Definition float_of_string (s : string) : option pyfloat :=
  let (neg, body) := take_sign (strip (list_ascii_of_string s)) in
  let word := lower (string_of_list_ascii body) in
  if String.eqb word "inf" || String.eqb word "infinity" then Some (FInf neg)
  else if String.eqb word "nan" then Some FNaN
  else floatnumber neg body.

Definition float (v : option string) : exn + pyfloat :=
  match v with
  | None => inl TypeError
  | Some s =>
      match float_of_string s with
      | Some f => inr f
      | None => inl ValueError
      end
  end.

(** Truthiness of an optional string: [None] and the empty string are
    false. *)
Definition truthy (v : option string) : bool :=
  match v with
  | None | Some EmptyString => false
  | Some _ => true
  end.

End Py.

(** ** The model [DrinkService] and the table behind it *)

(** A value of the [price] column: [increase_price] stores an [int], the
    other writers a [float]. *)
Inductive number : Type :=
| NInt (z : Z)
| NFloat (f : Py.pyfloat).

Definition to_float (n : number) : Py.pyfloat :=
  match n with
  | NInt z => Py.FFin (inject_Z z)
  | NFloat f => f
  end.

(** Numeric order of the store; nothing compares with [nan]. *)
Definition float_le (a b : Py.pyfloat) : bool :=
  match a, b with
  | Py.FNaN, _ | _, Py.FNaN => false
  | Py.FInf true, _ => true
  | _, Py.FInf false => true
  | Py.FInf false, _ => false
  | _, Py.FInf true => false
  | Py.FFin x, Py.FFin y => Qle_bool x y
  end.

Definition num_le (a b : number) : bool := float_le (to_float a) (to_float b).

Record DrinkService : Type := mkDrink {
  id : Z;
  name : string;
  description : option string;
  price : number;
  duration : Z
}.

Definition with_name (v : string) (d : DrinkService) : DrinkService :=
  mkDrink (id d) v (description d) (price d) (duration d).
Definition with_description (v : option string) (d : DrinkService) : DrinkService :=
  mkDrink (id d) (name d) v (price d) (duration d).
Definition with_price (v : number) (d : DrinkService) : DrinkService :=
  mkDrink (id d) (name d) (description d) v (duration d).
Definition with_duration (v : Z) (d : DrinkService) : DrinkService :=
  mkDrink (id d) (name d) (description d) (price d) v.

(** An object built by [DrinkService(name=..., ...)]: no identity before
    the flush. *)
Record Transient : Type := mkTransient {
  t_name : string;
  t_description : option string;
  t_price : number;
  t_duration : Z
}.

(** The rows of the table, in rowid order. *)
Definition Table : Type := list DrinkService.

Definition ids (tbl : Table) : list Z := map id tbl.

(** The rowid an insert takes: one more than the largest in use. *)
Definition next_id (tbl : Table) : Z := 1 + fold_right Z.max 0 (ids tbl).

Definition lookup (k : Z) (tbl : Table) : option DrinkService :=
  find (fun d => id d =? k) tbl.

(** Primary key: rowids strictly increase along the table. *)
Definition wf (tbl : Table) : Prop := StronglySorted Z.lt (ids tbl).

(** ** The session: a unit of work over the table *)

Record Session : Type := mkSession {
  table : Table;                  (* what is committed *)
  identity : list DrinkService;   (* objects loaded here, as they are in memory *)
  pending : list Transient;       (* session.add *)
  removed : list Z                (* session.delete *)
}.

Definition begin (tbl : Table) : Session := mkSession tbl [] [] [].

(** [DrinkService.query.get(k)]: the object of the identity map, loaded
    from the table on first use. *)
Definition query_get (k : Z) (s : Session) : option DrinkService * Session :=
  match lookup k (identity s) with
  | Some d => (Some d, s)
  | None =>
      match lookup k (table s) with
      | Some d => (Some d, mkSession (table s) (d :: identity s) (pending s) (removed s))
      | None => (None, s)
      end
  end.

(** [drink.attr = v] on the loaded object with rowid [k]. *)
Definition set_attr (k : Z) (f : DrinkService -> DrinkService) (s : Session) : Session :=
  mkSession (table s)
            (map (fun d => if id d =? k then f d else d) (identity s))
            (pending s) (removed s).

Definition session_add (t : Transient) (s : Session) : Session :=
  mkSession (table s) (identity s) (pending s ++ [t]) (removed s).

Definition session_delete (d : DrinkService) (s : Session) : Session :=
  mkSession (table s) (identity s) (pending s) (id d :: removed s).

Definition write_back (objs : list DrinkService) (tbl : Table) : Table :=
  map (fun r => match lookup (id r) objs with Some o => o | None => r end) tbl.

Definition delete_rows (ks : list Z) (tbl : Table) : Table :=
  filter (fun r => negb (existsb (Z.eqb (id r)) ks)) tbl.

Definition insert_row (tbl : Table) (t : Transient) : Table :=
  tbl ++ [mkDrink (next_id tbl) (t_name t) (t_description t) (t_price t) (t_duration t)].

(** The flush: updates, deletes, inserts. *)
Definition flush (s : Session) : Table :=
  fold_left insert_row (pending s)
            (delete_rows (removed s) (write_back (identity s) (table s))).

Definition commit (s : Session) : Session := mkSession (flush s) [] [] [].

(** [session.remove()] when the request ends: what was not committed is
    dropped. *)
Definition teardown (s : Session) : Session := mkSession (table s) [] [] [].

(** ** Queries *)

(** A query under construction: the criteria added by [filter]. *)
Definition Query : Type := list (DrinkService -> bool).

Definition q_filter (q : Query) (c : DrinkService -> bool) : Query := q ++ [c].

Definition q_all (s : Session) (q : Query) : list DrinkService :=
  filter (fun d => forallb (fun c => c d) q) (table s).

Definition q_first (s : Session) (q : Query) : option DrinkService :=
  hd_error (q_all s q).

(** [LIKE]: [%] stands for any run of characters, [_] for any one. *)
Fixpoint like (p : list ascii) : list ascii -> bool :=
  match p with
  | [] => fun t => match t with [] => true | _ => false end
  | c :: p' =>
      if Ascii.eqb c "%"%char then
        fix star (t : list ascii) : bool :=
          like p' t || match t with [] => false | _ :: t' => star t' end
      else if Ascii.eqb c "_"%char then
        fun t => match t with [] => false | _ :: t' => like p' t' end
      else
        fun t => match t with
                 | [] => false
                 | x :: t' => Ascii.eqb c x && like p' t'
                 end
  end.

(** [column.ilike(pattern)]: [lower(column) LIKE lower(pattern)]. *)
Definition ilike (col pat : string) : bool :=
  like (list_ascii_of_string (Py.lower pat)) (list_ascii_of_string (Py.lower col)).

(** [func.max(DrinkService.duration)], [None] on an empty table. *)
Definition max_of_duration (tbl : Table) : option Z :=
  match tbl with
  | [] => None
  | d :: tbl' => Some (fold_left Z.max (map duration tbl') (duration d))
  end.

(** ** Requests and responses *)

(** [request.form] and [request.args]: the pairs in the order received. *)
Definition MultiDict : Type := list (string * string).

Fixpoint get (m : MultiDict) (k : string) : option string :=
  match m with
  | [] => None
  | (k', v) :: m' => if String.eqb k' k then Some v else get m' k
  end.

(** [k in m]. *)
Definition contains (m : MultiDict) (k : string) : bool :=
  match get m k with Some _ => true | None => false end.

(** What an f-string prints for an optional string. *)
Definition str (v : option string) : string :=
  match v with Some s => s | None => "None" end.

#[warnings="-register-all"]
Inductive json : Type :=
| JNull
| JInt (z : Z)
| JNum (n : number)
| JStr (s : string)
| JArr (l : list json)
| JObj (fields : list (string * json)).

Definition JOpt (v : option string) : json :=
  match v with Some s => JStr s | None => JNull end.

Inductive body : Type :=
| Json (j : json)
| Text (s : string).

Inductive Outcome : Type :=
| Response (status : Z) (b : body)
| Unhandled (e : Py.exn).

Definition jsonify (j : json) : body := Json j.

Definition Handler : Type := Session -> Outcome * Session.

(** One request against the table: a fresh session, the handler, then the
    teardown. *)
Definition serve (h : Handler) (tbl : Table) : Outcome * Table :=
  let (o, s) := h (begin tbl) in (o, table (teardown s)).

(** ** The handlers *)

Definition error (m : string) : json := JObj [("error", JStr m)].
Definition message (m : string) : json := JObj [("message", JStr m)].

(** [POST /drinks]: [add_drink], lines 83-102 of [app.py]. *)
Definition add_drink (form : MultiDict) : Handler := fun s =>
  let name := get form "name" in
  let description := get form "description" in
  let price := get form "price" in
  let duration := get form "duration" in
  if negb (Py.truthy name) || negb (Py.truthy price) || negb (Py.truthy duration)
  then (Response 400 (jsonify (error "Missing required fields")), s)
  else
    match Py.float price with
    | inl _ =>
        (Response 400 (jsonify (error "Invalid data types for price or duration")), s)
    | inr price =>
        match Py.int duration with
        | inl _ =>
            (Response 400 (jsonify (error "Invalid data types for price or duration")), s)
        | inr duration =>
            let new_drink := mkTransient (str name) description (NFloat price) duration in
            let s := session_add new_drink s in
            let s := commit s in
            (Response 201 (jsonify (message "New drink added successfully")), s)
        end
    end.

(** [DELETE /drinks/<drink_id>]: [delete_drink], lines 123-131. *)
Definition delete_drink (drink_id : Z) : Handler := fun s =>
  let (drink, s) := query_get drink_id s in
  match drink with
  | None => (Response 404 (jsonify (error "Drink not found")), s)
  | Some drink =>
      let s := session_delete drink s in
      let s := commit s in
      (Response 204 (Text EmptyString), s)
  end.

Definition serialize (drink : DrinkService) : json :=
  JObj [("id", JInt (id drink));
        ("name", JStr (name drink));
        ("description", JOpt (description drink));
        ("price", JNum (price drink));
        ("duration", JInt (duration drink))].

(** One [if param: query = query.filter(...coerce(param)...)] step: the
    coercion runs only for a truthy value, and its exception is not caught. *)
Definition filter_if {A : Type} (param : option string)
           (coerce : option string -> Py.exn + A)
           (crit : A -> DrinkService -> bool) (query : Query) : Py.exn + Query :=
  if Py.truthy param then
    match coerce param with
    | inr v => inr (q_filter query (crit v))
    | inl e => inl e
    end
  else inr query.

Definition bind {A B : Type} (m : Py.exn + A) (k : A -> Py.exn + B) : Py.exn + B :=
  match m with
  | inr a => k a
  | inl e => inl e
  end.

Notation "x <- m ;; k" := (bind m (fun x => k))
  (at level 61, m at next level, right associativity).

Definition name_ilike (pat : string) (d : DrinkService) : bool := ilike (name d) pat.
Definition price_ge (v : Py.pyfloat) (d : DrinkService) : bool := num_le (NFloat v) (price d).
Definition price_le (v : Py.pyfloat) (d : DrinkService) : bool := num_le (price d) (NFloat v).
Definition duration_ge (v : Z) (d : DrinkService) : bool := v <=? duration d.
Definition duration_le (v : Z) (d : DrinkService) : bool := duration d <=? v.

(** [GET /drinks], lines 176-201, from [query = DrinkService.query] on:
    the query is built from the five parameters, run, and its rows
    serialized. *)
Definition filter_query
           (name min_price max_price min_duration max_duration : option string)
  : Handler := fun s =>
  let query : Query := [] in
  let query :=
    if Py.truthy name
    then q_filter query (name_ilike ("%" ++ str name ++ "%")%string)
    else query in
  let result :=
    query <- filter_if min_price Py.float price_ge query ;;
    query <- filter_if max_price Py.float price_le query ;;
    query <- filter_if min_duration Py.int duration_ge query ;;
    query <- filter_if max_duration Py.int duration_le query ;;
    inr (q_all s query) in
  match result with
  | inr drinks => (Response 200 (jsonify (JArr (map serialize drinks))), s)
  | inl e => (Unhandled e, s)
  end.

(** [GET /drinks]: [filter_drinks], lines 170-201; the five parameters
    are read first. *)
Definition filter_drinks (args : MultiDict) : Handler :=
  let name := get args "name" in
  let min_price := get args "min_price" in
  let max_price := get args "max_price" in
  let min_duration := get args "min_duration" in
  let max_duration := get args "max_duration" in
  filter_query name min_price max_price min_duration max_duration.

(** [PATCH /drinks/<drink_id>]: [increase_price], lines 226-234. *)
Definition increase_price (drink_id : Z) (form : MultiDict) : Handler := fun s =>
  let (drink, s) := query_get drink_id s in
  match drink with
  | Some drink =>
      let new_price := get form "price" in
      match Py.int new_price with
      | inl e => (Unhandled e, s)
      | inr v =>
          let s := set_attr (id drink) (with_price (NInt v)) s in
          let s := commit s in
          (Response 200 (jsonify (message "Price updated successfully")), s)
      end
  | None => (Response 404 (jsonify (error "Drink not found")), s)
  end.

(** [PUT /drinks/<drink_id>]: [update_drink], lines 277-303. A failed
    coercion returns from inside the handler, with the session as the
    assignments made so far left it. *)
Definition update_drink (drink_id : Z) (form : MultiDict) : Handler := fun s =>
  let (drink, s) := query_get drink_id s in
  match drink with
  | None => (Response 404 (jsonify (error "Drink not found")), s)
  | Some drink =>
      let s :=
        if contains form "name"
        then set_attr (id drink) (with_name (str (get form "name"))) s else s in
      let s :=
        if contains form "description"
        then set_attr (id drink) (with_description (get form "description")) s else s in
      let after_price :=
        if contains form "price" then
          match Py.float (get form "price") with
          | inr v => inr (set_attr (id drink) (with_price (NFloat v)) s)
          | inl _ => inl (Response 400 (jsonify (error "Invalid data type for price")))
          end
        else inr s in
      match after_price with
      | inl r => (r, s)
      | inr s =>
          let after_duration :=
            if contains form "duration" then
              match Py.int (get form "duration") with
              | inr v => inr (set_attr (id drink) (with_duration v) s)
              | inl _ => inl (Response 400 (jsonify (error "Invalid data type for duration")))
              end
            else inr s in
          match after_duration with
          | inl r => (r, s)
          | inr s =>
              let s := commit s in
              (Response 200 (jsonify (message "Drink updated successfully")), s)
          end
      end
  end.

(** [GET /drinks/max_duration]: [get_max_duration], lines 330-336. *)
Definition get_max_duration : Handler := fun s =>
  let max_duration := max_of_duration (table s) in
  let drink :=
    match max_duration with
    | Some m => q_first s (q_filter [] (fun d => duration d =? m))
    | None => None
    end in
  match drink, max_duration with
  | Some drink, Some m =>
      (Response 200 (jsonify (JObj [("max_duration", JInt m);
                                    ("drink_name", JStr (name drink))])), s)
  | Some drink, None =>
      (Response 200 (jsonify (JObj [("max_duration", JNull);
                                    ("drink_name", JStr (name drink))])), s)
  | None, _ => (Response 200 (jsonify (message "No drinks found")), s)
  end.

(** Case analysis on every integer equality test in sight. *)
Ltac case_eqb :=
  repeat match goal with
         | |- context [Z.eqb ?a ?b] => destruct (Z.eqb_spec a b)
         | H : context [Z.eqb ?a ?b] |- _ => destruct (Z.eqb_spec a b)
         end;
  try congruence; try reflexivity.


(** ** Sample data *)

Definition dec (n : Z) : number := NFloat (Py.FFin (inject_Z n)).

Definition tea : DrinkService := mkDrink 1 "Tea" None (dec 5) 3.
Definition coffee : DrinkService := mkDrink 2 "Coffee" None (dec 8) 5.
Definition cocoa : DrinkService := mkDrink 3 "Cocoa" None (dec 5) 10.

(** The catalog of the filtering example. *)
Definition catalog : Table := [tea; coffee; cocoa].

(** The catalog of the longest-duration example. *)
Definition two_drinks : Table :=
  [mkDrink 1 "A" None (dec 1) 10; mkDrink 2 "B" None (dec 1) 20].

(** ** Reading [filter_drinks] *)

(** What a parameter amounts to for the [if param:] tests: an empty value
    counts as none. *)
Definition supplied (v : option string) : option string :=
  if Py.truthy v then v else None.

(** The five parameters [filter_drinks] reads. *)
Definition filter_keys : list string :=
  ["name"; "min_price"; "max_price"; "min_duration"; "max_duration"].

(** A non-empty value that its coercion rejects. *)
Definition unparsable {A : Type} (parse : string -> option A)
           (v : option string) : Prop :=
  exists s, v = Some s /\ s <> EmptyString /\ parse s = None.

(** What one [filter_if] step asks of a row, once it went through. *)
Definition criterion {A : Type} (param : option string)
           (coerce : option string -> Py.exn + A)
           (crit : A -> DrinkService -> bool) (d : DrinkService) : bool :=
  if Py.truthy param then
    match coerce param with
    | inr v => crit v d
    | inl _ => true
    end
  else true.

(** The criteria of one [GET /drinks], put together. *)
Definition passes (args : MultiDict) (d : DrinkService) : bool :=
  (if Py.truthy (get args "name")
   then name_ilike ("%" ++ str (get args "name") ++ "%")%string d else true)
  && criterion (get args "min_price") Py.float price_ge d
  && criterion (get args "max_price") Py.float price_le d
  && criterion (get args "min_duration") Py.int duration_ge d
  && criterion (get args "max_duration") Py.int duration_le d.

(** The request has a numeric parameter that its coercion rejects. *)
Definition bad_filter (args : MultiDict) : Prop :=
  unparsable Py.float_of_string (get args "min_price") \/
  unparsable Py.float_of_string (get args "max_price") \/
  unparsable Py.int_of_string (get args "min_duration") \/
  unparsable Py.int_of_string (get args "max_duration").



(** ** The filter of [GET /drinks] in the words of the specification *)

(** Case-insensitive substring match. *)
Definition ci_substring (needle hay : string) : Prop :=
  exists pre post, Py.lower hay = (pre ++ Py.lower needle ++ post)%string.



(** ** The other aggregates *)

(** [func.min(DrinkService.duration)], [None] on an empty table. *)
Definition min_of_duration (tbl : Table) : option Z :=
  match tbl with
  | [] => None
  | d :: tbl' => Some (fold_left Z.min (map duration tbl') (duration d))
  end.

Definition JOptInt (v : option Z) : json :=
  match v with Some z => JInt z | None => JNull end.

(** [GET /drinks/min_duration]: [get_min_duration], lines 350-351. *)
Definition get_min_duration : Handler := fun s =>
  let min_duration := min_of_duration (table s) in
  (Response 200 (jsonify (JObj [("min_duration", JOptInt min_duration)])), s).

(** Sum and quotient of the store's floating values, on exact rationals. *)
Definition float_add (a b : Py.pyfloat) : Py.pyfloat :=
  match a, b with
  | Py.FNaN, _ | _, Py.FNaN => Py.FNaN
  | Py.FInf x, Py.FInf y => if Bool.eqb x y then Py.FInf x else Py.FNaN
  | Py.FInf x, Py.FFin _ | Py.FFin _, Py.FInf x => Py.FInf x
  | Py.FFin x, Py.FFin y => Py.FFin (Qred (Qplus x y))
  end.

Definition float_div_count (a : Py.pyfloat) (n : nat) : Py.pyfloat :=
  match a with
  | Py.FFin x => Py.FFin (Qred (Qdiv x (inject_Z (Z.of_nat n))))
  | _ => a
  end.

(** [func.avg(DrinkService.price)], [None] on an empty table. *)
Definition avg_of_price (tbl : Table) : option Py.pyfloat :=
  match tbl with
  | [] => None
  | _ =>
      Some (float_div_count
              (fold_left float_add (map (fun d => to_float (price d)) tbl)
                         (Py.FFin (inject_Z 0)))
              (List.length tbl))
  end.

Definition JOptNum (v : option Py.pyfloat) : json :=
  match v with Some f => JNum (NFloat f) | None => JNull end.

(** [GET /drinks/average_price]: [get_average_price], lines 315-316. *)
Definition get_average_price : Handler := fun s =>
  let average_price := avg_of_price (table s) in
  (Response 200 (jsonify (JObj [("average_price", JOptNum average_price)])), s).

(** ** Routing *)

(** The requests the [@app.route] decorators of the catalog accept. *)
Inductive Request : Type :=
| POST_drinks (form : MultiDict)
| DELETE_drink (drink_id : Z)
| GET_drinks (args : MultiDict)
| PATCH_drink (drink_id : Z) (form : MultiDict)
| PUT_drink (drink_id : Z) (form : MultiDict)
| GET_average_price
| GET_max_duration
| GET_min_duration.

Definition route (r : Request) : Handler :=
  match r with
  | POST_drinks form => add_drink form
  | DELETE_drink k => delete_drink k
  | GET_drinks args => filter_drinks args
  | PATCH_drink k form => increase_price k form
  | PUT_drink k form => update_drink k form
  | GET_average_price => get_average_price
  | GET_max_duration => get_max_duration
  | GET_min_duration => get_min_duration
  end.

(** The table after a run of requests, one after the other. *)
Definition run (reqs : list Request) (tbl : Table) : Table :=
  fold_left (fun t r => snd (serve (route r) t)) reqs tbl.


(** A request that only reads. *)
Definition is_get (r : Request) : bool :=
  match r with
  | GET_drinks _ | GET_average_price | GET_max_duration | GET_min_duration => true
  | _ => false
  end.


(** ** Reading [update_drink] *)

(** What the assignments of [update_drink] make of the loaded object, or
    the message of the coercion that failed. *)
Definition put_fields (form : MultiDict) (d : DrinkService) : string + DrinkService :=
  let d := match get form "name" with Some v => with_name v d | None => d end in
  let d := match get form "description" with
           | Some v => with_description (Some v) d
           | None => d
           end in
  let after_price :=
    match get form "price" with
    | Some s =>
        match Py.float_of_string s with
        | Some v => inr (with_price (NFloat v) d)
        | None => inl "Invalid data type for price"
        end
    | None => inr d
    end in
  match after_price with
  | inl m => inl m
  | inr d =>
      match get form "duration" with
      | Some s =>
          match Py.int_of_string s with
          | Some v => inr (with_duration v d)
          | None => inl "Invalid data type for duration"
          end
      | None => inr d
      end
  end.
(** ** Python builtins on sample literals *)

Example int_5 : Py.int_of_string "5" = Some 5. Proof. reflexivity. Qed.
Example int_ws : Py.int_of_string " -1_0 " = Some (-10). Proof. reflexivity. Qed.
Example int_55 : Py.int_of_string "5.5" = None. Proof. reflexivity. Qed.
Example int_abc : Py.int_of_string "abc" = None. Proof. reflexivity. Qed.
Example int_empty : Py.int_of_string EmptyString = None. Proof. reflexivity. Qed.
Example int_us : Py.int_of_string "1__0" = None. Proof. reflexivity. Qed.
Example float_5 : Py.float_of_string "5" = Some (Py.FFin (5 # 1)). Proof. reflexivity. Qed.
Example float_55 : Py.float_of_string "5.5" = Some (Py.FFin (11 # 2)). Proof. reflexivity. Qed.
Example float_e : Py.float_of_string "1.5e2" = Some (Py.FFin (150 # 1)). Proof. reflexivity. Qed.
Example float_dot : Py.float_of_string ".5" = Some (Py.FFin (1 # 2)). Proof. reflexivity. Qed.
Example float_dot' : Py.float_of_string "." = None. Proof. reflexivity. Qed.
Example float_nan : Py.float_of_string "NaN" = Some Py.FNaN. Proof. reflexivity. Qed.
Example float_inf : Py.float_of_string "-Infinity" = Some (Py.FInf true). Proof. reflexivity. Qed.
Example float_abc : Py.float_of_string "abc" = None. Proof. reflexivity. Qed.
Example float_empty : Py.float_of_string EmptyString = None. Proof. reflexivity. Qed.

(** ** The table: lookups, write-back, deletion, insertion *)

Section TableFacts.

Lemma lookup_some (k : Z) (tbl : Table) (d : DrinkService) :
  lookup k tbl = Some d -> In d tbl /\ id d = k.
Proof.
  unfold lookup. intros H. apply find_some in H. destruct H as [Hin Hk].
  split; [assumption | now apply Z.eqb_eq].
Qed.


Lemma lookup_cons (k : Z) (r : DrinkService) (tbl : Table) :
  lookup k (r :: tbl) = if id r =? k then Some r else lookup k tbl.
Proof. reflexivity. Qed.

Lemma query_get_begin (k : Z) (tbl : Table) :
  query_get k (begin tbl) =
  match lookup k tbl with
  | Some d => (Some d, mkSession tbl [d] [] [])
  | None => (None, begin tbl)
  end.
Proof. unfold query_get. simpl. now destruct (lookup k tbl). Qed.

Lemma write_back_one (o : DrinkService) (tbl : Table) :
  write_back [o] tbl = map (fun r => if id r =? id o then o else r) tbl.
Proof.
  unfold write_back. apply map_ext. intros r. rewrite lookup_cons.
  rewrite (Z.eqb_sym (id o)). now destruct (id r =? id o).
Qed.

Lemma lookup_write_back (o : DrinkService) (tbl : Table) (k : Z) :
  lookup k (write_back [o] tbl) =
  if k =? id o
  then match lookup k tbl with Some _ => Some o | None => None end
  else lookup k tbl.
Proof.
  rewrite write_back_one. induction tbl as [|r tbl IH]; cbn [map].
  - now destruct (k =? id o).
  - rewrite !lookup_cons, IH. case_eqb.
Qed.

Lemma ids_write_back (o : DrinkService) (tbl : Table) :
  ids (write_back [o] tbl) = ids tbl.
Proof.
  rewrite write_back_one. unfold ids. rewrite map_map. apply map_ext.
  intros r. destruct (Z.eqb_spec (id r) (id o)); congruence.
Qed.

Lemma delete_rows_one (k : Z) (tbl : Table) :
  delete_rows [k] tbl = filter (fun r => negb (id r =? k)) tbl.
Proof.
  unfold delete_rows. apply filter_ext. intros r. simpl. now rewrite orb_false_r.
Qed.

(** Deleting rowid [k] after writing back an object with that rowid: the
    written row goes with the deleted ones. *)
Lemma delete_after_write_back (o : DrinkService) (tbl : Table) :
  delete_rows [id o] (write_back [o] tbl) = delete_rows [id o] tbl.
Proof.
  rewrite !delete_rows_one, write_back_one.
  induction tbl as [|r tbl IH]; simpl; [reflexivity|].
  destruct (Z.eqb_spec (id r) (id o)) as [E|E]; simpl.
  - now rewrite Z.eqb_refl.
  - destruct (Z.eqb_spec (id r) (id o)); [contradiction|]. simpl. now f_equal.
Qed.


Lemma in_delete_rows (k : Z) (tbl : Table) (d : DrinkService) :
  In d (delete_rows [k] tbl) <-> In d tbl /\ id d <> k.
Proof.
  rewrite delete_rows_one, filter_In, negb_true_iff, Z.eqb_neq. tauto.
Qed.

Lemma next_id_above (tbl : Table) (k : Z) : In k (ids tbl) -> k < next_id tbl.
Proof.
  unfold next_id. induction (ids tbl) as [|x l IH]; cbn [In fold_right]; [tauto|].
  intros [E|H]; [| specialize (IH H)];
    destruct (Z.max_spec x (fold_right Z.max 0 l)); lia.
Qed.

Lemma next_id_fresh (tbl : Table) : ~ In (next_id tbl) (ids tbl).
Proof. intros H. apply next_id_above in H. lia. Qed.

Lemma lookup_app_fresh (k : Z) (tbl : Table) (r : DrinkService) :
  lookup k (tbl ++ [r]) =
  match lookup k tbl with
  | Some d => Some d
  | None => if id r =? k then Some r else None
  end.
Proof.
  induction tbl as [|x tbl IH]; cbn [app].
  - rewrite lookup_cons. reflexivity.
  - rewrite !lookup_cons, IH. now destruct (id x =? k).
Qed.

End TableFacts.

(** The primary key survives every flush. *)
Section WellFormed.

Lemma wf_write_back (o : DrinkService) (tbl : Table) :
  wf tbl -> wf (write_back [o] tbl).
Proof. unfold wf. now rewrite ids_write_back. Qed.

Lemma wf_delete_rows (ks : list Z) (tbl : Table) :
  wf tbl -> wf (delete_rows ks tbl).
Proof.
  unfold wf, ids, delete_rows. induction tbl as [|r tbl IH]; simpl; intros H.
  - constructor.
  - inversion H as [|? ? Hs Hall]; subst.
    destruct (negb (existsb (Z.eqb (id r)) ks)); simpl; [|now apply IH].
    constructor; [now apply IH|].
    rewrite Forall_forall in *. intros x Hx. apply Hall.
    rewrite in_map_iff in *. destruct Hx as [y [<- Hy]].
    apply filter_In in Hy. exists y. tauto.
Qed.

Lemma wf_insert_row (tbl : Table) (t : Transient) :
  wf tbl -> wf (insert_row tbl t).
Proof.
  unfold wf, insert_row, ids. rewrite map_app. simpl.
  assert (Hab : forall k, In k (map id tbl) -> k < next_id tbl)
    by (intros k; apply next_id_above).
  revert Hab. generalize (next_id tbl) as n.
  induction (map id tbl) as [|x l IH]; simpl; intros n Hab H.
  - repeat constructor.
  - inversion H as [|? ? Hs Hall]; subst. constructor.
    + apply IH; auto.
    + rewrite Forall_forall in *. intros y Hy. apply in_app_or in Hy.
      destruct Hy as [Hy|[<-|[]]]; auto.
Qed.

End WellFormed.

(** ** Flushing a session *)

Lemma delete_rows_nil (tbl : Table) : delete_rows [] tbl = tbl.
Proof.
  unfold delete_rows. induction tbl as [|r tbl IH]; simpl in *; congruence.
Qed.

(** Committing a session that only holds one loaded object writes that
    object back. *)
Lemma flush_loaded (tbl : Table) (o : DrinkService) :
  flush (mkSession tbl [o] [] []) = write_back [o] tbl.
Proof. unfold flush. cbn [pending removed identity table fold_left]. apply delete_rows_nil. Qed.

(** ** [delete_drink] *)

Lemma delete_drink_serve (k : Z) (tbl : Table) :
  serve (delete_drink k) tbl =
  match lookup k tbl with
  | Some _ => (Response 204 (Text EmptyString), delete_rows [k] tbl)
  | None => (Response 404 (jsonify (error "Drink not found")), tbl)
  end.
Proof.
  unfold serve, delete_drink. rewrite query_get_begin.
  destruct (lookup k tbl) as [d|] eqn:Hd; [|reflexivity].
  apply lookup_some in Hd. destruct Hd as [_ <-].
  unfold session_delete, commit, teardown, flush.
  cbn [table identity pending removed fold_left].
  now rewrite delete_after_write_back.
Qed.



Example delete_coffee :
  serve (delete_drink 2) catalog = (Response 204 (Text EmptyString), [tea; cocoa]).
Proof. reflexivity. Qed.

(** ** [increase_price] *)

Lemma increase_price_serve (k : Z) (form : MultiDict) (tbl : Table) :
  serve (increase_price k form) tbl =
  match lookup k tbl with
  | Some d =>
      match Py.int (get form "price") with
      | inl e => (Unhandled e, tbl)
      | inr v =>
          (Response 200 (jsonify (message "Price updated successfully")),
           write_back [with_price (NInt v) d] tbl)
      end
  | None => (Response 404 (jsonify (error "Drink not found")), tbl)
  end.
Proof.
  unfold serve, increase_price. rewrite query_get_begin.
  destruct (lookup k tbl) as [d|]; [|reflexivity].
  destruct (Py.int (get form "price")) as [e|v]; [reflexivity|].
  unfold set_attr, commit, teardown.
  cbn [table identity pending removed map].
  rewrite Z.eqb_refl, flush_loaded. reflexivity.
Qed.





(** ** [update_drink] *)

Lemma contains_get (m : MultiDict) (k : string) :
  contains m k = match get m k with Some _ => true | None => false end.
Proof. reflexivity. Qed.


(** Runs [update_drink] on an existing row, branch by branch. *)
Ltac run_update Hd :=
  unfold serve, update_drink; rewrite query_get_begin, Hd;
  rewrite !contains_get; unfold Py.float, Py.int.

Ltac step_attr :=
  unfold set_attr; cbn [identity table pending removed map id with_name
                        with_description with_price with_duration];
  rewrite ?Z.eqb_refl.



(** What the failing request had already done in memory: the loaded object
    carries the new name, the table does not. *)
Example update_drink_in_memory :
  let s := snd (update_drink 2 [("name", "Mocha"); ("price", "a lot")] (begin catalog)) in
  identity s = [with_name "Mocha" coffee] /\ table s = catalog /\
  table (teardown s) = catalog /\ identity (teardown s) = [].
Proof. repeat split. Qed.

Lemma lookup_written (k : Z) (tbl : Table) (d o : DrinkService) :
  lookup k tbl = Some d -> id o = id d ->
  lookup k (write_back [o] tbl) = Some o /\
  (forall k', k' <> k -> lookup k' (write_back [o] tbl) = lookup k' tbl).
Proof.
  intros Hd Ho. destruct (lookup_some _ _ Hd) as [_ Hid]. split.
  - rewrite lookup_write_back, Hd, Ho, Hid. now rewrite Z.eqb_refl.
  - intros k' Hk'. rewrite lookup_write_back, Ho, Hid. case_eqb.
Qed.



Example update_description_only :
  serve (update_drink 2 [("description", "hot")]) catalog =
  (Response 200 (jsonify (message "Drink updated successfully")),
   [tea; mkDrink 2 "Coffee" (Some "hot") (dec 8) 5; cocoa]).
Proof. reflexivity. Qed.

(** ** [add_drink] *)




Lemma flush_added (tbl : Table) (t : Transient) :
  flush (session_add t (begin tbl)) = insert_row tbl t.
Proof.
  unfold flush, session_add, begin, write_back.
  cbn [pending removed identity table fold_left app].
  rewrite delete_rows_nil.
  f_equal. rewrite <- (map_id tbl) at 2. apply map_ext. reflexivity.
Qed.



Example add_milk :
  serve (add_drink [("name", "Milk"); ("price", "2.5"); ("duration", "1")]) catalog =
  (Response 201 (jsonify (message "New drink added successfully")),
   [tea; coffee; cocoa; mkDrink 4 "Milk" None (NFloat (Py.FFin (5 # 2))) 1]).
Proof. reflexivity. Qed.

(** Every handler keeps the primary key: rowids stay strictly increasing. *)
Lemma add_drink_wf (form : MultiDict) (tbl : Table) :
  wf tbl -> wf (snd (serve (add_drink form) tbl)).
Proof.
  intros H. unfold serve, add_drink.
  destruct (negb _ || negb _ || negb _); [exact H|].
  destruct (Py.float _); [exact H|]. destruct (Py.int _); [exact H|].
  unfold commit, teardown. cbn [snd table].
  change (mkSession tbl [] [] []) with (begin tbl).
  rewrite flush_added. now apply wf_insert_row.
Qed.

Lemma delete_drink_wf (k : Z) (tbl : Table) :
  wf tbl -> wf (snd (serve (delete_drink k) tbl)).
Proof.
  intros H. rewrite delete_drink_serve.
  destruct (lookup k tbl); [now apply wf_delete_rows | exact H].
Qed.

Lemma increase_price_wf (k : Z) (form : MultiDict) (tbl : Table) :
  wf tbl -> wf (snd (serve (increase_price k form) tbl)).
Proof.
  intros H. rewrite increase_price_serve.
  destruct (lookup k tbl); [|exact H].
  destruct (Py.int _); [exact H | now apply wf_write_back].
Qed.

Lemma update_drink_wf (k : Z) (form : MultiDict) (tbl : Table) :
  wf tbl -> wf (snd (serve (update_drink k form) tbl)).
Proof.
  intros H. destruct (lookup k tbl) as [d|] eqn:Hd.
  2:{ unfold serve, update_drink. rewrite query_get_begin, Hd. exact H. }
  run_update Hd.
  destruct (get form "name") as [n|], (get form "description") as [ds|],
           (get form "price") as [p|], (get form "duration") as [du|];
    try destruct (Py.float_of_string p) as [pv|];
    try destruct (Py.int_of_string du) as [dv|];
    step_attr; try exact H;
    unfold commit, teardown; cbn [snd table]; rewrite flush_loaded;
    now apply wf_write_back.
Qed.

Example catalog_wf : wf catalog.
Proof. repeat constructor. Qed.

(** ** [get_max_duration] *)

Section MaxDuration.

Lemma fold_max_ge (l : list Z) (a : Z) :
  a <= fold_left Z.max l a /\ (forall x, In x l -> x <= fold_left Z.max l a).
Proof.
  revert a. induction l as [|y l IH]; intros a; cbn [fold_left In].
  - split; [lia | tauto].
  - destruct (IH (Z.max a y)) as [H1 H2]. split; [lia|].
    intros x [<-|Hx]; [lia | now apply H2].
Qed.

Lemma fold_max_in (l : list Z) (a : Z) :
  fold_left Z.max l a = a \/ In (fold_left Z.max l a) l.
Proof.
  revert a. induction l as [|y l IH]; intros a; cbn [fold_left In].
  - now left.
  - destruct (IH (Z.max a y)) as [H|H]; [|now right; right].
    rewrite H. destruct (Z.max_spec a y) as [[_ ->]|[_ ->]]; [right|]; now left.
Qed.

(** The largest duration bounds every row and is the duration of one. *)
Lemma max_of_duration_spec (tbl : Table) (m : Z) :
  max_of_duration tbl = Some m ->
  (forall d, In d tbl -> duration d <= m) /\
  (exists d, In d tbl /\ duration d = m).
Proof.
  destruct tbl as [|r tbl]; [discriminate|]. cbn [max_of_duration].
  intros H. injection H as <-.
  destruct (fold_max_ge (map duration tbl) (duration r)) as [H1 H2]. split.
  - intros d [<-|Hd]; [exact H1 | apply H2; now apply in_map].
  - destruct (fold_max_in (map duration tbl) (duration r)) as [H|H].
    + exists r. split; [now left | now rewrite H].
    + apply in_map_iff in H. destruct H as [d [Hd Hin]].
      exists d. split; [now right | exact Hd].
Qed.

(** [first()] on a filtered query: the first row of the table that passes,
    when one does. *)
Lemma first_of_filter (f : DrinkService -> bool) (tbl : Table) :
  (exists d, In d tbl /\ f d = true) ->
  exists x before after,
    hd_error (filter f tbl) = Some x /\ tbl = before ++ x :: after /\
    f x = true /\ (forall y, In y before -> f y = false).
Proof.
  induction tbl as [|r tbl IH]; intros [d [Hin Hf]]; [destruct Hin|].
  cbn [filter]. destruct (f r) eqn:Hr.
  - exists r, [], tbl. repeat split; auto. intros y [].
  - destruct IH as [x [before [after [H1 [H2 [H3 H4]]]]]].
    { destruct Hin as [<-|Hin]; [congruence | now exists d]. }
    exists x, (r :: before), after. repeat split; auto.
    + cbn [app]. now rewrite H2.
    + intros y [<-|Hy]; auto.
Qed.

End MaxDuration.

(** C8. On an empty catalog [GET /drinks/max_duration] answers the
    no-drinks message. On any other catalog it answers the largest
    duration of the catalog together with the name of the first row, in
    table order, that has it. On the catalog A (10), B (20) the answer is
    20 and B. *)
Theorem get_max_duration_spec (tbl : Table) :
  serve get_max_duration [] =
    (Response 200 (jsonify (message "No drinks found")), []) /\
  (tbl <> [] ->
   exists m drink before after,
     serve get_max_duration tbl =
       (Response 200 (jsonify (JObj [("max_duration", JInt m);
                                     ("drink_name", JStr (name drink))])), tbl) /\
     tbl = before ++ drink :: after /\
     duration drink = m /\
     (forall d, In d tbl -> duration d <= m) /\
     (forall d, In d before -> duration d < m)) /\
  serve get_max_duration two_drinks =
    (Response 200 (jsonify (JObj [("max_duration", JInt 20);
                                  ("drink_name", JStr "B")])), two_drinks).
Proof.
  split; [reflexivity|]. split; [|reflexivity].
  intros Hne. destruct (max_of_duration tbl) as [m|] eqn:Hm.
  2:{ destruct tbl; [congruence | discriminate]. }
  destruct (max_of_duration_spec _ Hm) as [Hle [d [Hin Hd]]].
  destruct (@first_of_filter (fun x => duration x =? m) tbl)
    as [x [before [after [H1 [H2 [H3 H4]]]]]].
  { exists d. split; [exact Hin | now apply Z.eqb_eq]. }
  apply Z.eqb_eq in H3.
  exists m, x, before, after. split; [|split; [exact H2|split; [exact H3|split]]].
  - unfold serve, get_max_duration. cbn [begin table]. rewrite Hm.
    unfold q_first, q_all, q_filter. cbn [app forallb table].
    rewrite (filter_ext _ (fun x => duration x =? m))
      by (intros a; apply andb_true_r).
    change (table (begin tbl)) with tbl. rewrite H1. reflexivity.
  - exact Hle.
  - intros y Hy. specialize (H4 y Hy). apply Z.eqb_neq in H4.
    assert (duration y <= m) by (apply Hle; rewrite H2; apply in_or_app; now left).
    lia.
Qed.

Lemma get_max_duration_spec_witness :
  exists m drink before after,
    serve get_max_duration catalog =
      (Response 200 (jsonify (JObj [("max_duration", JInt m);
                                    ("drink_name", JStr (name drink))])), catalog) /\
    catalog = before ++ drink :: after /\
    duration drink = m /\
    (forall d, In d catalog -> duration d <= m) /\
    (forall d, In d before -> duration d < m).
Proof.
  apply (proj1 (proj2 (get_max_duration_spec catalog))). discriminate.
Defined.

(** Ties go to the row that comes first in the table. *)
Example max_duration_tie :
  fst (serve get_max_duration
             [mkDrink 1 "A" None (dec 1) 20; mkDrink 2 "B" None (dec 1) 20]) =
  Response 200 (jsonify (JObj [("max_duration", JInt 20); ("drink_name", JStr "A")])).
Proof. reflexivity. Qed.

(** ** [LIKE] patterns *)

Section Like.

(** One step of the matcher. *)
Lemma like_cons (c : ascii) (p t : list ascii) :
  like (c :: p) t =
  if Ascii.eqb c "%"%char then
    like p t || match t with [] => false | _ :: t' => like (c :: p) t' end
  else if Ascii.eqb c "_"%char then
    match t with [] => false | _ :: t' => like p t' end
  else
    match t with [] => false | x :: t' => Ascii.eqb c x && like p t' end.
Proof.
  cbn [like]. destruct (Ascii.eqb c "%"%char).
  - destruct t; reflexivity.
  - destruct (Ascii.eqb c "_"%char); reflexivity.
Qed.

(** A leading [%] lets the rest of the pattern start anywhere. *)
Lemma like_percent (q t : list ascii) :
  like ("%"%char :: q) t = true <->
  exists pre rest, t = pre ++ rest /\ like q rest = true.
Proof.
  induction t as [|x t IH]; rewrite like_cons; cbn [Ascii.eqb Bool.eqb].
  - rewrite orb_false_r. split.
    + intros H. now exists [], [].
    + intros [pre [rest [E H]]]. symmetry in E. apply app_eq_nil in E.
      destruct E as [_ ->]. exact H.
  - rewrite orb_true_iff, IH. split.
    + intros [H|[pre [rest [-> H]]]].
      * now exists [], (x :: t).
      * now exists (x :: pre), rest.
    + intros [pre [rest [E H]]]. destruct pre as [|y pre].
      * left. cbn [app] in E. now rewrite E.
      * right. cbn [app] in E. injection E as _ ->. now exists pre, rest.
Qed.

Lemma like_percent_all (t : list ascii) : like ["%"%char] t = true.
Proof. apply like_percent. now exists t, []; rewrite app_nil_r. Qed.




Lemma list_of_append (a b : string) :
  list_ascii_of_string (a ++ b)%string =
  list_ascii_of_string a ++ list_ascii_of_string b.
Proof. induction a as [|c a IH]; cbn; [reflexivity | now rewrite IH]. Qed.

Lemma lower_append (a b : string) :
  Py.lower (a ++ b)%string = (Py.lower a ++ Py.lower b)%string.
Proof. induction a as [|c a IH]; cbn; [reflexivity | now rewrite IH]. Qed.



End Like.

Example like_underscore : ilike "Tea" "%t_a%" = true.
Proof. reflexivity. Qed.


(** ** [filter_drinks] *)

Section FilterSteps.

Variable A : Type.
Variable crit : A -> DrinkService -> bool.

(** A step that went through added its criterion to the query. *)
Lemma filter_if_inr (param : option string) (coerce : option string -> Py.exn + A)
      (q q' : Query) (d : DrinkService) :
  filter_if param coerce crit q = inr q' ->
  forallb (fun c => c d) q' =
  forallb (fun c => c d) q && criterion param coerce crit d.
Proof.
  unfold filter_if, criterion. destruct (Py.truthy param).
  - destruct (coerce param) as [e|v]; [discriminate|].
    intros H. injection H as <-. unfold q_filter.
    rewrite forallb_app. cbn [forallb]. now rewrite andb_true_r.
  - intros H. injection H as <-. now rewrite andb_true_r.
Qed.

End FilterSteps.

Lemma truthy_cons (c : ascii) (s : string) : Py.truthy (Some (String c s)) = true.
Proof. reflexivity. Qed.

(** A [float] step raises [ValueError] on an unparsable value and goes
    through otherwise. *)
Lemma filter_if_float (param : option string)
      (crit : Py.pyfloat -> DrinkService -> bool) (q : Query) :
  (unparsable Py.float_of_string param /\
   filter_if param Py.float crit q = inl Py.ValueError) \/
  (~ unparsable Py.float_of_string param /\
   exists q', filter_if param Py.float crit q = inr q').
Proof.
  unfold filter_if, unparsable. destruct param as [[|c s]|].
  - right. split; [intros [s [E [H _]]]; congruence | now exists q].
  - rewrite truthy_cons. unfold Py.float.
    destruct (Py.float_of_string (String c s)) as [v|] eqn:E.
    + right. split; [intros [s' [E' [_ H]]]; congruence | eauto].
    + left. split; [|reflexivity]. exists (String c s). now repeat split.
  - right. split; [intros [s [E _]]; discriminate | now exists q].
Qed.

Lemma filter_if_int (param : option string)
      (crit : Z -> DrinkService -> bool) (q : Query) :
  (unparsable Py.int_of_string param /\
   filter_if param Py.int crit q = inl Py.ValueError) \/
  (~ unparsable Py.int_of_string param /\
   exists q', filter_if param Py.int crit q = inr q').
Proof.
  unfold filter_if, unparsable. destruct param as [[|c s]|].
  - right. split; [intros [s [E [H _]]]; congruence | now exists q].
  - rewrite truthy_cons. unfold Py.int.
    destruct (Py.int_of_string (String c s)) as [v|] eqn:E.
    + right. split; [intros [s' [E' [_ H]]]; congruence | eauto].
    + left. split; [|reflexivity]. exists (String c s). now repeat split.
  - right. split; [intros [s [E _]]; discriminate | now exists q].
Qed.

(** The two ways out of [filter_drinks]. *)
Lemma filter_drinks_run (args : MultiDict) (s : Session) :
  (bad_filter args -> filter_drinks args s = (Unhandled Py.ValueError, s)) /\
  (~ bad_filter args ->
   filter_drinks args s =
   (Response 200 (jsonify (JArr (map serialize (filter (passes args) (table s))))), s)).
Proof.
  unfold filter_drinks, filter_query, bad_filter. cbv zeta.
  set (q0 := if Py.truthy (get args "name") then _ else _).
  destruct (filter_if_float (get args "min_price") price_ge q0)
    as [[B1 E1]|[B1 [q1 E1]]]; rewrite E1; cbn [bind];
    [split; [reflexivity | tauto]|].
  destruct (filter_if_float (get args "max_price") price_le q1)
    as [[B2 E2]|[B2 [q2 E2]]]; rewrite E2; cbn [bind];
    [split; [reflexivity | tauto]|].
  destruct (filter_if_int (get args "min_duration") duration_ge q2)
    as [[B3 E3]|[B3 [q3 E3]]]; rewrite E3; cbn [bind];
    [split; [reflexivity | tauto]|].
  destruct (filter_if_int (get args "max_duration") duration_le q3)
    as [[B4 E4]|[B4 [q4 E4]]]; rewrite E4; cbn [bind];
    [split; [reflexivity | tauto]|].
  split; [tauto|]. intros _. unfold q_all.
  rewrite (filter_ext _ (passes args)); [reflexivity|]. intros d.
  rewrite (filter_if_inr _ _ _ _ d E4), (filter_if_inr _ _ _ _ d E3),
    (filter_if_inr _ _ _ _ d E2), (filter_if_inr _ _ _ _ d E1).
  unfold passes. do 4 f_equal. subst q0.
  destruct (Py.truthy (get args "name")); [|reflexivity].
  unfold q_filter. cbn [app forallb]. apply andb_true_r.
Qed.

(** ** The criteria, one by one *)









Lemma filter_drinks_serve (args : MultiDict) (tbl : Table) :
  (bad_filter args ->
   serve (filter_drinks args) tbl = (Unhandled Py.ValueError, tbl)) /\
  (~ bad_filter args ->
   serve (filter_drinks args) tbl =
   (Response 200 (jsonify (JArr (map serialize (filter (passes args) tbl)))), tbl)).
Proof.
  unfold serve. destruct (filter_drinks_run args (begin tbl)) as [H1 H2].
  split; intros H; [rewrite (H1 H) | rewrite (H2 H)]; reflexivity.
Qed.






(** ** Empty parameters *)

Lemma filter_query_supplied
      (name min_price max_price min_duration max_duration : option string)
      (s : Session) :
  filter_query name min_price max_price min_duration max_duration s =
  filter_query (supplied name) (supplied min_price) (supplied max_price)
               (supplied min_duration) (supplied max_duration) s.
Proof.
  unfold filter_query, filter_if.
  destruct name as [[|c0 n]|], min_price as [[|c1 a]|], max_price as [[|c2 b]|],
           min_duration as [[|c3 c]|], max_duration as [[|c4 e]|];
    reflexivity.
Qed.

Lemma filter_drinks_supplied (args args' : MultiDict) (s : Session) :
  (forall k, In k filter_keys -> supplied (get args k) = supplied (get args' k)) ->
  filter_drinks args s = filter_drinks args' s.
Proof.
  intros H. unfold filter_drinks. cbv zeta.
  rewrite filter_query_supplied, (filter_query_supplied (get args' "name")).
  rewrite !(H _) by (cbn; tauto). reflexivity.
Qed.

Lemma get_cons (k k' v : string) (m : MultiDict) :
  get ((k', v) :: m) k = if String.eqb k' k then Some v else get m k.
Proof. reflexivity. Qed.

(** C10. For [GET /drinks] an empty value is no value: two requests that
    agree on the five parameters, up to empty ones counting as absent,
    get the same answer, so none of the empty ones is parsed or applied.
    In particular [name=], [min_price=], [max_price=], [min_duration=] or
    [max_duration=] in front of a request that does not have the
    parameter changes nothing. *)
Theorem filter_drinks_empty_as_absent (args : MultiDict) (tbl : Table) :
  (forall args',
     (forall k, In k filter_keys -> supplied (get args k) = supplied (get args' k)) ->
     serve (filter_drinks args) tbl = serve (filter_drinks args') tbl) /\
  (forall k, In k filter_keys -> get args k = None ->
     serve (filter_drinks ((k, EmptyString) :: args)) tbl = serve (filter_drinks args) tbl).
Proof.
  split.
  - intros args' H. unfold serve. now rewrite (filter_drinks_supplied _ _ _ H).
  - intros k Hk Hnone. unfold serve.
    rewrite (@filter_drinks_supplied ((k, EmptyString) :: args) args); [reflexivity|].
    intros k' _. rewrite get_cons. destruct (String.eqb_spec k k') as [<-|_].
    + now rewrite Hnone.
    + reflexivity.
Qed.

Lemma filter_drinks_empty_as_absent_witness :
  serve (filter_drinks [("name", "co")]) catalog =
  serve (filter_drinks [("min_price", EmptyString); ("name", "co"); ("max_duration", EmptyString)])
        catalog /\
  serve (filter_drinks [("min_duration", EmptyString); ("name", "co")]) catalog =
  serve (filter_drinks [("name", "co")]) catalog.
Proof.
  split.
  - apply (proj1 (filter_drinks_empty_as_absent [("name", "co")] catalog)).
    intros k [<-|[<-|[<-|[<-|[<-|[]]]]]]; reflexivity.
  - apply (proj2 (filter_drinks_empty_as_absent [("name", "co")] catalog)).
    + cbn. tauto.
    + reflexivity.
Defined.

Example empty_min_price :
  serve (filter_drinks [("min_price", EmptyString)]) catalog = serve (filter_drinks []) catalog.
Proof. reflexivity. Qed.

(** * Beyond the catalogued properties *)

(** ** [get_min_duration] *)

Section MinDuration.

Lemma fold_min_le (l : list Z) (a : Z) :
  fold_left Z.min l a <= a /\ (forall x, In x l -> fold_left Z.min l a <= x).
Proof.
  revert a. induction l as [|y l IH]; intros a; cbn [fold_left In].
  - split; [lia | tauto].
  - destruct (IH (Z.min a y)) as [H1 H2]. split; [lia|].
    intros x [<-|Hx]; [lia | now apply H2].
Qed.

Lemma fold_min_in (l : list Z) (a : Z) :
  fold_left Z.min l a = a \/ In (fold_left Z.min l a) l.
Proof.
  revert a. induction l as [|y l IH]; intros a; cbn [fold_left In].
  - now left.
  - destruct (IH (Z.min a y)) as [H|H]; [|now right; right].
    rewrite H. destruct (Z.min_spec a y) as [[_ ->]|[_ ->]]; [|right]; now left.
Qed.

Lemma min_of_duration_spec (tbl : Table) (m : Z) :
  min_of_duration tbl = Some m ->
  (forall d, In d tbl -> m <= duration d) /\
  (exists d, In d tbl /\ duration d = m).
Proof.
  destruct tbl as [|r tbl]; [discriminate|]. cbn [min_of_duration].
  intros H. injection H as <-.
  destruct (fold_min_le (map duration tbl) (duration r)) as [H1 H2]. split.
  - intros d [<-|Hd]; [exact H1 | apply H2; now apply in_map].
  - destruct (fold_min_in (map duration tbl) (duration r)) as [H|H].
    + exists r. split; [now left | now rewrite H].
    + apply in_map_iff in H. destruct H as [d [Hd Hin]].
      exists d. split; [now right | exact Hd].
Qed.

End MinDuration.

(** X1. [GET /drinks/min_duration] answers [null] on an empty catalog and
    otherwise the smallest duration: no row is below it and some row has
    it. The catalog is left as it was. *)
Theorem get_min_duration_spec (tbl : Table) :
  serve get_min_duration [] =
    (Response 200 (jsonify (JObj [("min_duration", JNull)])), []) /\
  (tbl <> [] ->
   exists m,
     serve get_min_duration tbl =
       (Response 200 (jsonify (JObj [("min_duration", JInt m)])), tbl) /\
     (forall d, In d tbl -> m <= duration d) /\
     (exists d, In d tbl /\ duration d = m)).
Proof.
  split; [reflexivity|]. intros Hne.
  destruct (min_of_duration tbl) as [m|] eqn:Hm.
  2:{ destruct tbl; [congruence | discriminate]. }
  exists m. split; [|now apply min_of_duration_spec].
  unfold serve, get_min_duration. cbn [begin table teardown]. now rewrite Hm.
Qed.

Lemma get_min_duration_spec_witness :
  exists m,
    serve get_min_duration catalog =
      (Response 200 (jsonify (JObj [("min_duration", JInt m)])), catalog) /\
    (forall d, In d catalog -> m <= duration d) /\
    (exists d, In d catalog /\ duration d = m).
Proof.
  apply (proj2 (get_min_duration_spec catalog)). discriminate.
Defined.

Lemma get_max_duration_value (tbl : Table) (m : Z) :
  max_of_duration tbl = Some m ->
  exists drink,
    serve get_max_duration tbl =
    (Response 200 (jsonify (JObj [("max_duration", JInt m);
                                  ("drink_name", JStr (name drink))])), tbl).
Proof.
  intros Hm. destruct (max_of_duration_spec _ Hm) as [_ [d [Hin Hd]]].
  destruct (@first_of_filter (fun x => duration x =? m) tbl)
    as [x [before [after [H1 _]]]].
  { exists d. split; [exact Hin | now apply Z.eqb_eq]. }
  exists x. unfold serve, get_max_duration. cbn [begin table]. rewrite Hm.
  unfold q_first, q_all, q_filter. cbn [app forallb table].
  rewrite (filter_ext _ (fun x => duration x =? m))
    by (intros a; apply andb_true_r).
  change (table (begin tbl)) with tbl. rewrite H1. reflexivity.
Qed.

(** X2. On a catalog that is not empty the two duration endpoints agree with
    each other: the minimum reported is at most the maximum reported, and
    the two are equal exactly when all drinks take the same time. *)
Theorem min_duration_le_max_duration (tbl : Table) :
  tbl <> [] ->
  exists lo hi drink,
    fst (serve get_min_duration tbl) =
      Response 200 (jsonify (JObj [("min_duration", JInt lo)])) /\
    fst (serve get_max_duration tbl) =
      Response 200 (jsonify (JObj [("max_duration", JInt hi);
                                   ("drink_name", JStr (name drink))])) /\
    lo <= hi /\
    (lo = hi <-> forall d d', In d tbl -> In d' tbl -> duration d = duration d').
Proof.
  intros Hne.
  destruct (min_of_duration tbl) as [lo|] eqn:Hlo.
  2:{ destruct tbl; [congruence | discriminate]. }
  destruct (max_of_duration tbl) as [hi|] eqn:Hhi.
  2:{ destruct tbl; [congruence | discriminate]. }
  destruct (min_of_duration_spec _ Hlo) as [L1 [dl [L2 L3]]].
  destruct (max_of_duration_spec _ Hhi) as [M1 [dh [M2 M3]]].
  destruct (get_max_duration_value _ Hhi) as [drink Hmax].
  exists lo, hi, drink. split; [|split; [|split]].
  - unfold serve, get_min_duration. cbn [begin table teardown fst]. now rewrite Hlo.
  - now rewrite Hmax.
  - specialize (L1 dh M2). lia.
  - split.
    + intros E d d' Hd Hd'.
      pose proof (L1 d Hd). pose proof (M1 d Hd).
      pose proof (L1 d' Hd'). pose proof (M1 d' Hd'). lia.
    + intros H. rewrite <- L3, <- M3. now apply H.
Qed.

Lemma min_duration_le_max_duration_witness :
  exists lo hi drink,
    fst (serve get_min_duration catalog) =
      Response 200 (jsonify (JObj [("min_duration", JInt lo)])) /\
    fst (serve get_max_duration catalog) =
      Response 200 (jsonify (JObj [("max_duration", JInt hi);
                                   ("drink_name", JStr (name drink))])) /\
    lo <= hi /\
    (lo = hi <->
     forall d d', In d catalog -> In d' catalog -> duration d = duration d').
Proof.
  apply (min_duration_le_max_duration (tbl := catalog)). discriminate.
Defined.

Example min_duration_catalog :
  fst (serve get_min_duration catalog) =
  Response 200 (jsonify (JObj [("min_duration", JInt 3)])).
Proof. reflexivity. Qed.

(** ** [get_average_price] *)

Section AveragePrice.



End AveragePrice.




Example average_of_4_and_6 :
  fst (serve get_average_price
             [mkDrink 1 "A" None (dec 4) 1; mkDrink 2 "B" None (NInt 6) 1]) =
  Response 200 (jsonify (JObj [("average_price", JNum (dec 5))])).
Proof. reflexivity. Qed.

(** ** Every route, case by case *)

Section Routes.

Lemma add_drink_cases (form : MultiDict) (tbl : Table) :
  (exists m, serve (add_drink form) tbl = (Response 400 (jsonify (error m)), tbl)) \/
  (exists t,
     serve (add_drink form) tbl =
     (Response 201 (jsonify (message "New drink added successfully")),
      insert_row tbl t)).
Proof.
  unfold serve, add_drink.
  destruct (negb _ || negb _ || negb _); [left; eexists; reflexivity|].
  destruct (Py.float _); [left; eexists; reflexivity|].
  destruct (Py.int _); [left; eexists; reflexivity|].
  right. eexists. unfold commit, teardown. cbn [table].
  change (mkSession tbl [] [] []) with (begin tbl). now rewrite flush_added.
Qed.

Lemma update_drink_cases (k : Z) (form : MultiDict) (tbl : Table) :
  (exists st m,
     (st = 400 \/ st = 404) /\
     serve (update_drink k form) tbl = (Response st (jsonify (error m)), tbl)) \/
  (exists d o,
     lookup k tbl = Some d /\ id o = id d /\
     serve (update_drink k form) tbl =
     (Response 200 (jsonify (message "Drink updated successfully")),
      write_back [o] tbl)).
Proof.
  destruct (lookup k tbl) as [d|] eqn:Hd.
  2:{ left. exists 404, "Drink not found". split; [now right|].
      unfold serve, update_drink. now rewrite query_get_begin, Hd. }
  run_update Hd.
  destruct (get form "name") as [n|], (get form "description") as [ds|],
           (get form "price") as [p|], (get form "duration") as [du|];
    try destruct (Py.float_of_string p) as [pv|];
    try destruct (Py.int_of_string du) as [dv|];
    step_attr;
    first [ left; exists 400; eexists; split; [now left | reflexivity]
          | right; unfold commit, teardown; cbn [table]; rewrite flush_loaded;
            exists d; eexists; split; [reflexivity | split; cycle 1];
            reflexivity ].
Qed.

Lemma unparsable_dec (A : Type) (parse : string -> option A) (v : option string) :
  unparsable parse v \/ ~ unparsable parse v.
Proof.
  unfold unparsable. destruct v as [[|c s]|].
  - right. intros [s [E [H _]]]. congruence.
  - destruct (parse (String c s)) as [a|] eqn:E.
    + right. intros [s' [E' [_ H]]]. congruence.
    + left. exists (String c s). now repeat split.
  - right. intros [s [E _]]. discriminate.
Qed.

Lemma bad_filter_dec (args : MultiDict) : bad_filter args \/ ~ bad_filter args.
Proof.
  unfold bad_filter.
  destruct (unparsable_dec Py.float_of_string (get args "min_price")),
           (unparsable_dec Py.float_of_string (get args "max_price")),
           (unparsable_dec Py.int_of_string (get args "min_duration")),
           (unparsable_dec Py.int_of_string (get args "max_duration")); tauto.
Qed.

Lemma sorted_NoDup (l : list Z) : StronglySorted Z.lt l -> NoDup l.
Proof.
  induction 1 as [|x l Hs IH Hall]; constructor; [|exact IH].
  intros Hin. rewrite Forall_forall in Hall. specialize (Hall x Hin). lia.
Qed.

Lemma filter_drinks_read_only (args : MultiDict) (tbl : Table) :
  snd (serve (filter_drinks args) tbl) = tbl.
Proof.
  destruct (bad_filter_dec args) as [H|H];
    [rewrite (proj1 (filter_drinks_serve args tbl) H)
    | rewrite (proj2 (filter_drinks_serve args tbl) H)]; reflexivity.
Qed.

Lemma get_max_duration_read_only (tbl : Table) :
  snd (serve get_max_duration tbl) = tbl.
Proof.
  unfold serve, get_max_duration. cbn [begin table].
  destruct (max_of_duration tbl); [destruct (q_first _ _)|]; reflexivity.
Qed.

End Routes.

(** ** What the routes never do *)

(** X5. A [GET] leaves the catalog as it was, whatever it answers. *)
Theorem get_is_read_only (r : Request) (tbl : Table) :
  is_get r = true -> snd (serve (route r) tbl) = tbl.
Proof.
  destruct r as [form|k|args|k form|k form| | |]; try discriminate;
    intros _; cbn [route].
  - apply filter_drinks_read_only.
  - reflexivity.
  - apply get_max_duration_read_only.
  - reflexivity.
Qed.

Lemma get_is_read_only_witness :
  snd (serve (route (GET_drinks [("min_price", "abc")])) catalog) = catalog /\
  snd (serve (route GET_average_price) catalog) = catalog.
Proof.
  split.
  - apply (@get_is_read_only (GET_drinks [("min_price", "abc")]) catalog).
    reflexivity.
  - apply (@get_is_read_only GET_average_price catalog). reflexivity.
Defined.




(** X8. Rows come and go through [POST] and [DELETE] only: any other request
    leaves the set of ids as it was, a [POST] removes none and a [DELETE]
    adds none. *)
Theorem ids_change_only_by_post_and_delete (r : Request) (tbl : Table) :
  ((forall form, r <> POST_drinks form) ->
   incl (ids (snd (serve (route r) tbl))) (ids tbl)) /\
  ((forall k, r <> DELETE_drink k) ->
   incl (ids tbl) (ids (snd (serve (route r) tbl)))).
Proof.
  assert (Hsame : forall t : Table, ids t = ids tbl ->
                    incl (ids t) (ids tbl) /\ incl (ids tbl) (ids t)).
  { intros t ->. split; apply incl_refl. }
  destruct r as [form|k|args|k form|k form| | |]; cbn [route].
  - split; [intros H; now destruct (H form)|]. intros _.
    destruct (add_drink_cases form tbl) as [[m E]|[t E]]; rewrite E; cbn [snd].
    + apply incl_refl.
    + unfold insert_row, ids. rewrite map_app. now apply incl_appl, incl_refl.
  - split; [|intros H; now destruct (H k)]. intros _.
    rewrite delete_drink_serve. destruct (lookup k tbl); cbn [snd]; [|apply incl_refl].
    intros x Hx. unfold ids in *. apply in_map_iff in Hx.
    destruct Hx as [y [<- Hy]]. apply in_delete_rows in Hy. apply in_map. tauto.
  - rewrite filter_drinks_read_only. split; intros _; apply incl_refl.
  - rewrite increase_price_serve. destruct (lookup k tbl);
      [destruct (Py.int _)|]; cbn [snd]; rewrite ?ids_write_back;
      split; intros _; apply incl_refl.
  - destruct (update_drink_cases k form tbl)
      as [[st [m [_ E]]]|[d [o [_ [_ E]]]]]; rewrite E; cbn [snd];
      rewrite ?ids_write_back; split; intros _; apply incl_refl.
  - split; intros _; apply incl_refl.
  - rewrite get_max_duration_read_only. split; intros _; apply incl_refl.
  - split; intros _; apply incl_refl.
Qed.

Lemma ids_change_only_by_post_and_delete_witness :
  incl (ids (snd (serve (route (PUT_drink 2 [("name", "Mocha")])) catalog)))
       (ids catalog) /\
  incl (ids catalog)
       (ids (snd (serve (route (PUT_drink 2 [("name", "Mocha")])) catalog))).
Proof.
  split.
  - apply (proj1 (ids_change_only_by_post_and_delete
                    (PUT_drink 2 [("name", "Mocha")]) catalog)).
    discriminate.
  - apply (proj2 (ids_change_only_by_post_and_delete
                    (PUT_drink 2 [("name", "Mocha")]) catalog)).
    discriminate.
Defined.

(** ** The primary key over a run of requests *)

Lemma route_wf (r : Request) (tbl : Table) :
  wf tbl -> wf (snd (serve (route r) tbl)).
Proof.
  intros H. destruct r as [form|k|args|k form|k form| | |]; cbn [route].
  - now apply add_drink_wf.
  - now apply delete_drink_wf.
  - now rewrite filter_drinks_read_only.
  - now apply increase_price_wf.
  - now apply update_drink_wf.
  - exact H.
  - now rewrite get_max_duration_read_only.
  - exact H.
Qed.

(** X9. Whatever requests are served, in whatever order, a catalog whose ids
    increase strictly along the table stays so: no two drinks ever share
    an id. This holds in particular from the empty catalog on. *)
Theorem primary_key_invariant (reqs : list Request) (tbl : Table) :
  (wf tbl -> wf (run reqs tbl) /\ NoDup (ids (run reqs tbl))) /\
  NoDup (ids (run reqs [])).
Proof.
  assert (H : forall t, wf t -> wf (run reqs t)).
  { unfold run. induction reqs as [|r reqs IH]; intros t Ht; cbn [fold_left].
    - exact Ht.
    - apply IH. now apply route_wf. }
  split.
  - intros Hwf. split; [now apply H | apply sorted_NoDup; now apply H].
  - apply sorted_NoDup. apply H. constructor.
Qed.

Lemma primary_key_invariant_witness :
  wf (run [DELETE_drink 3; POST_drinks [("name", "Milk"); ("price", "2"); ("duration", "1")]]
          catalog) /\
  NoDup (ids (run [DELETE_drink 3;
                   POST_drinks [("name", "Milk"); ("price", "2"); ("duration", "1")]]
                  catalog)).
Proof.
  apply (proj1 (primary_key_invariant
                  [DELETE_drink 3;
                   POST_drinks [("name", "Milk"); ("price", "2"); ("duration", "1")]]
                  catalog)).
  repeat constructor.
Defined.

(** ** Requests in sequence *)

Section Composition.

(** [update_drink], seen from the row it works on. *)
Lemma update_drink_serve (k : Z) (form : MultiDict) (tbl : Table) :
  serve (update_drink k form) tbl =
  match lookup k tbl with
  | None => (Response 404 (jsonify (error "Drink not found")), tbl)
  | Some d =>
      match put_fields form d with
      | inl m => (Response 400 (jsonify (error m)), tbl)
      | inr o =>
          (Response 200 (jsonify (message "Drink updated successfully")),
           write_back [o] tbl)
      end
  end.
Proof.
  destruct (lookup k tbl) as [d|] eqn:Hd.
  2:{ unfold serve, update_drink. now rewrite query_get_begin, Hd. }
  run_update Hd. unfold put_fields.
  destruct (get form "name") as [n|], (get form "description") as [ds|],
           (get form "price") as [p|], (get form "duration") as [du|];
    try destruct (Py.float_of_string p) as [pv|];
    try destruct (Py.int_of_string du) as [dv|];
    step_attr; try reflexivity;
    unfold commit, teardown; cbn [table]; rewrite flush_loaded; reflexivity.
Qed.

Lemma put_fields_id (form : MultiDict) (d o : DrinkService) :
  put_fields form d = inr o -> id o = id d.
Proof.
  unfold put_fields.
  destruct (get form "name"), (get form "description"),
           (get form "price") as [p|], (get form "duration") as [du|];
    try destruct (Py.float_of_string p); try destruct (Py.int_of_string du);
    intros H; try discriminate; injection H as <-; reflexivity.
Qed.

(** Assigning the same form again changes nothing more. *)
Lemma put_fields_again (form : MultiDict) (d o : DrinkService) :
  put_fields form d = inr o -> put_fields form o = inr o.
Proof.
  unfold put_fields.
  destruct (get form "name"), (get form "description"),
           (get form "price") as [p|], (get form "duration") as [du|];
    try destruct (Py.float_of_string p); try destruct (Py.int_of_string du);
    intros H; try discriminate; injection H as <-; destruct d; reflexivity.
Qed.

Lemma write_back_again (o : DrinkService) (tbl : Table) :
  write_back [o] (write_back [o] tbl) = write_back [o] tbl.
Proof.
  rewrite !write_back_one, map_map. apply map_ext. intros r.
  destruct (Z.eqb_spec (id r) (id o)) as [E|E].
  - now rewrite Z.eqb_refl.
  - destruct (Z.eqb_spec (id r) (id o)); [contradiction | reflexivity].
Qed.

Lemma write_back_same (d : DrinkService) (tbl : Table) :
  wf tbl -> lookup (id d) tbl = Some d -> write_back [d] tbl = tbl.
Proof.
  rewrite write_back_one. unfold wf, ids.
  induction tbl as [|r tbl IH]; intros Hwf H; cbn [map]; [reflexivity|].
  rewrite lookup_cons in H. cbn [map] in Hwf.
  inversion Hwf as [|? ? Hs Hall]; subst.
  destruct (Z.eqb_spec (id r) (id d)) as [E|E].
  - injection H as ->. f_equal.
    rewrite <- (map_id tbl) at 2. apply map_ext_in. intros x Hx.
    rewrite Forall_forall in Hall.
    specialize (Hall (id x) (in_map id _ _ Hx)).
    destruct (Z.eqb_spec (id x) (id d)); [lia | reflexivity].
  - f_equal. now apply IH.
Qed.

Lemma filter_true (l : Table) : filter (fun _ => true) l = l.
Proof. induction l as [|x l IHl]; cbn [filter]; congruence. Qed.

Lemma delete_rows_fresh (tbl : Table) (r : DrinkService) :
  id r = next_id tbl -> delete_rows [id r] (tbl ++ [r]) = tbl.
Proof.
  intros Hr. rewrite delete_rows_one, filter_app. cbn [filter].
  rewrite Z.eqb_refl. cbn [negb]. rewrite app_nil_r.
  rewrite <- (filter_ext_in (fun _ => true)).
  - apply filter_true.
  - intros x Hx. symmetry. apply negb_true_iff, Z.eqb_neq.
    pose proof (@next_id_above tbl (id x) (in_map id _ _ Hx)). lia.
Qed.


End Composition.

(** X10. [PUT] and [PATCH] are idempotent: serving the same request a second
    time gives the same answer and leaves the catalog as the first left
    it. *)
Theorem put_and_patch_are_idempotent (k : Z) (form : MultiDict) (tbl : Table) :
  serve (update_drink k form) (snd (serve (update_drink k form) tbl)) =
    serve (update_drink k form) tbl /\
  serve (increase_price k form) (snd (serve (increase_price k form) tbl)) =
    serve (increase_price k form) tbl.
Proof.
  split.
  - rewrite (update_drink_serve k form tbl).
    destruct (lookup k tbl) as [d|] eqn:Hd; cbn [snd].
    + destruct (put_fields form d) as [m|o] eqn:Ho; cbn [snd].
      * now rewrite update_drink_serve, Hd, Ho.
      * rewrite update_drink_serve.
        destruct (@lookup_written k tbl d o Hd (put_fields_id _ _ Ho)) as [-> _].
        now rewrite (put_fields_again _ _ Ho), write_back_again.
    + now rewrite update_drink_serve, Hd.
  - rewrite (increase_price_serve k form tbl).
    destruct (lookup k tbl) as [d|] eqn:Hd; cbn [snd].
    + destruct (Py.int (get form "price")) as [e|v] eqn:Hv; cbn [snd].
      * now rewrite increase_price_serve, Hd, Hv.
      * rewrite increase_price_serve, Hv.
        destruct (@lookup_written k tbl d (with_price (NInt v) d) Hd eq_refl)
          as [-> _].
        change (with_price (NInt v) (with_price (NInt v) d))
          with (with_price (NInt v) d).
        now rewrite write_back_again.
    + now rewrite increase_price_serve, Hd.
Qed.

(** X11. A [PUT] whose form has none of the four fields answers 200 on an
    existing id and, the ids of the catalog being distinct, leaves the
    catalog exactly as it was. *)
Theorem put_without_fields_changes_nothing (k : Z) (form : MultiDict)
        (tbl : Table) (d : DrinkService) :
  wf tbl -> lookup k tbl = Some d ->
  get form "name" = None -> get form "description" = None ->
  get form "price" = None -> get form "duration" = None ->
  serve (update_drink k form) tbl =
  (Response 200 (jsonify (message "Drink updated successfully")), tbl).
Proof.
  intros Hwf Hd H1 H2 H3 H4. rewrite update_drink_serve, Hd.
  unfold put_fields. rewrite H1, H2, H3, H4.
  destruct (lookup_some _ _ Hd) as [_ Hid]. rewrite <- Hid in Hd.
  now rewrite (write_back_same Hwf Hd).
Qed.

Lemma put_without_fields_changes_nothing_witness :
  serve (update_drink 2 [("colour", "brown")]) catalog =
  (Response 200 (jsonify (message "Drink updated successfully")), catalog).
Proof.
  apply (@put_without_fields_changes_nothing 2 [("colour", "brown")] catalog coffee);
    try reflexivity.
  repeat constructor.
Defined.

(** X12. A drink that [POST] has just added is removed again by a [DELETE] of
    the id it was given, and the catalog is back to what it was. *)
Theorem post_then_delete_restores (form : MultiDict) (tbl tbl' : Table) (b : body) :
  serve (add_drink form) tbl = (Response 201 b, tbl') ->
  serve (delete_drink (next_id tbl)) tbl' = (Response 204 (Text EmptyString), tbl).
Proof.
  intros H. destruct (add_drink_cases form tbl) as [[m E]|[t E]];
    rewrite E in H; [discriminate|]. injection H as _ <-.
  unfold insert_row. set (row := mkDrink (next_id tbl) _ _ _ _).
  rewrite delete_drink_serve, lookup_app_fresh.
  destruct (lookup (next_id tbl) tbl) as [x|] eqn:Hx.
  - exfalso. apply lookup_some in Hx. destruct Hx as [Hin Hid].
    apply (@next_id_fresh tbl). rewrite <- Hid. unfold ids. now apply in_map.
  - cbn [row id]. rewrite Z.eqb_refl.
    change (next_id tbl) with (id row) at 1. now rewrite delete_rows_fresh.
Qed.

Lemma post_then_delete_restores_witness :
  serve (delete_drink (next_id catalog))
        [tea; coffee; cocoa; mkDrink 4 "Milk" None (NFloat (Py.FFin (5 # 2))) 1] =
  (Response 204 (Text EmptyString), catalog).
Proof.
  apply (@post_then_delete_restores
           [("name", "Milk"); ("price", "2.5"); ("duration", "1")] catalog _
           (jsonify (message "New drink added successfully"))).
  reflexivity.
Defined.

(** X13. [GET /drinks] without any supplied parameter lists the whole catalog,
    every drink once, in table order. *)
Theorem list_without_filters_is_everything (args : MultiDict) (tbl : Table) :
  (forall k, In k filter_keys -> supplied (get args k) = None) ->
  serve (filter_drinks args) tbl =
  (Response 200 (jsonify (JArr (map serialize tbl))), tbl).
Proof.
  intros H. unfold serve.
  rewrite (@filter_drinks_supplied args [] (begin tbl))
    by (intros k Hk; now rewrite (H k Hk)).
  unfold filter_drinks, filter_query, q_all. cbn.
  now rewrite filter_true.
Qed.

Lemma list_without_filters_is_everything_witness :
  serve (filter_drinks [("name", EmptyString); ("page", "2")]) catalog =
  (Response 200 (jsonify (JArr (map serialize catalog))), catalog).
Proof.
  apply (@list_without_filters_is_everything
           [("name", EmptyString); ("page", "2")] catalog).
  intros k [<-|[<-|[<-|[<-|[<-|[]]]]]]; reflexivity.
Defined.



(** ** More about [filter_drinks] *)

Section FilterFacts.

Lemma serialize_inj (d d' : DrinkService) : serialize d = serialize d' -> d = d'.
Proof.
  destruct d as [i n ds p du], d' as [i' n' ds' p' du']. unfold serialize.
  cbn [id name description price duration]. intros H.
  injection H as -> -> Hd -> ->.
  destruct ds, ds'; cbn [JOpt] in Hd; try discriminate; congruence.
Qed.

Lemma map_serialize_inj (l l' : list DrinkService) :
  map serialize l = map serialize l' -> l = l'.
Proof.
  revert l'. induction l as [|x l IH]; intros [|y l'] H; try discriminate.
  - reflexivity.
  - pose proof (f_equal (hd JNull) H) as Hx.
    pose proof (f_equal (@tl json) H) as Hl. cbn [map hd tl] in Hx, Hl.
    rewrite (serialize_inj Hx), (IH _ Hl). reflexivity.
Qed.

(** A 200 from [filter_drinks] carries the rows that pass. *)
Lemma filter_drinks_listed (args : MultiDict) (tbl tbl' : Table)
      (drinks : list DrinkService) :
  serve (filter_drinks args) tbl =
    (Response 200 (jsonify (JArr (map serialize drinks))), tbl') ->
  drinks = filter (passes args) tbl.
Proof.
  destruct (bad_filter_dec args) as [H|H].
  - rewrite (proj1 (filter_drinks_serve args tbl) H). discriminate.
  - rewrite (proj2 (filter_drinks_serve args tbl) H). intros E.
    injection E as E _. symmetry. now apply map_serialize_inj.
Qed.

(** A pair put in front of the parameters is seen under its key only. *)
Lemma get_cons_cases (k v : string) (args : MultiDict) (key : string) :
  get args k = None ->
  get ((k, v) :: args) key = get args key \/ get args key = None.
Proof.
  intros H. rewrite get_cons. destruct (String.eqb_spec k key) as [<-|_];
    [now right | now left].
Qed.

Lemma passes_cons (k v : string) (args : MultiDict) (d : DrinkService) :
  get args k = None ->
  passes ((k, v) :: args) d = true -> passes args d = true.
Proof.
  intros Hk. unfold passes. rewrite !andb_true_iff.
  intros [[[[H1 H2] H3] H4] H5].
  destruct (@get_cons_cases k v args "name" Hk) as [E1| ->],
           (@get_cons_cases k v args "min_price" Hk) as [E2| ->],
           (@get_cons_cases k v args "max_price" Hk) as [E3| ->],
           (@get_cons_cases k v args "min_duration" Hk) as [E4| ->],
           (@get_cons_cases k v args "max_duration" Hk) as [E5| ->];
    rewrite ?E1 in H1; rewrite ?E2 in H2; rewrite ?E3 in H3;
    rewrite ?E4 in H4; rewrite ?E5 in H5;
    repeat split; first [assumption | reflexivity].
Qed.

(** A pattern matches itself, wildcards included, whatever follows. *)
Lemma like_self_prefix (p post : list ascii) :
  like (p ++ ["%"%char]) (p ++ post) = true.
Proof.
  induction p as [|c p IH]; cbn [app].
  - apply like_percent_all.
  - rewrite like_cons. destruct (Ascii.eqb c "%"%char) eqn:E1.
    + apply Ascii.eqb_eq in E1. subst c. apply orb_true_iff. right.
      apply like_percent. now exists [], (p ++ post).
    + destruct (Ascii.eqb c "_"%char); [exact IH|].
      now rewrite Ascii.eqb_refl, IH.
Qed.

Lemma ilike_of_substring (n col : string) :
  ci_substring n col -> ilike col ("%" ++ n ++ "%")%string = true.
Proof.
  intros [pre [post E]]. unfold ilike.
  rewrite !lower_append, !list_of_append, E, !list_of_append.
  change (list_ascii_of_string (Py.lower "%")) with ["%"%char].
  cbn [app]. apply like_percent.
  exists (list_ascii_of_string pre),
         (list_ascii_of_string (Py.lower n) ++ list_ascii_of_string post).
  split; [reflexivity | apply like_self_prefix].
Qed.

End FilterFacts.

(** X15. One more parameter never lists more: when a request and the same
    request with one further parameter both answer 200, every drink of
    the second list is in the first. *)
Theorem more_filters_fewer_drinks (args : MultiDict) (k v : string)
        (tbl : Table) (drinks drinks' : list DrinkService) :
  get args k = None ->
  serve (filter_drinks args) tbl =
    (Response 200 (jsonify (JArr (map serialize drinks))), tbl) ->
  serve (filter_drinks ((k, v) :: args)) tbl =
    (Response 200 (jsonify (JArr (map serialize drinks'))), tbl) ->
  incl drinks' drinks.
Proof.
  intros Hk H H'. apply filter_drinks_listed in H, H'. subst.
  intros d Hd. apply filter_In in Hd. apply filter_In.
  split; [tauto|]. apply (@passes_cons k v args d Hk). tauto.
Qed.

Lemma more_filters_fewer_drinks_witness : incl [cocoa] [coffee; cocoa].
Proof.
  apply (@more_filters_fewer_drinks [("name", "co")] "max_price" "6" catalog
                                    [coffee; cocoa] [cocoa]);
    reflexivity.
Defined.

(** X16. Wildcards in a name only ever add rows: a drink whose name contains
    the requested name, letter case aside, is listed whatever characters
    the requested name is made of. *)
Theorem substring_is_always_listed (n : string) (tbl : Table) (d : DrinkService) :
  In d tbl -> ci_substring n (name d) ->
  exists drinks,
    serve (filter_drinks [("name", n)]) tbl =
      (Response 200 (jsonify (JArr (map serialize drinks))), tbl) /\
    In d drinks.
Proof.
  intros Hin Hsub. exists (filter (passes [("name", n)]) tbl). split.
  - apply (proj2 (filter_drinks_serve [("name", n)] tbl)).
    intros [[s [E _]]|[[s [E _]]|[[s [E _]]|[s [E _]]]]]; discriminate E.
  - apply filter_In. split; [exact Hin|]. unfold passes.
    cbn [get String.eqb Ascii.eqb Bool.eqb criterion Py.truthy andb str].
    rewrite !andb_true_r. destruct n as [|c n]; [reflexivity|].
    cbn [Py.truthy]. unfold name_ilike. now apply ilike_of_substring.
Qed.

Lemma substring_is_always_listed_witness :
  exists drinks,
    serve (filter_drinks [("name", "O_C")])
          [mkDrink 1 "Co_co" None (dec 4) 2; tea] =
      (Response 200 (jsonify (JArr (map serialize drinks))),
       [mkDrink 1 "Co_co" None (dec 4) 2; tea]) /\
    In (mkDrink 1 "Co_co" None (dec 4) 2) drinks.
Proof.
  apply (@substring_is_always_listed "O_C").
  - now left.
  - exists "c", "o". reflexivity.
Defined.

(** ** The empty name *)



(** ** [int] against [float] *)

Section IntFloat.







End IntFloat.



(** ** Listings and the catalog *)

(** X19. Whatever the parameters, a listing shows rows of the catalog and
    nothing else, in table order; when the ids of the catalog are
    distinct no drink is shown twice. *)
Theorem listed_drinks_are_stored (args : MultiDict) (tbl tbl' : Table)
        (drinks : list DrinkService) :
  serve (filter_drinks args) tbl =
    (Response 200 (jsonify (JArr (map serialize drinks))), tbl') ->
  incl drinks tbl /\ (wf tbl -> wf drinks /\ NoDup (ids drinks)).
Proof.
  intros H. apply filter_drinks_listed in H. subst drinks. split.
  - intros d Hd. now apply filter_In in Hd.
  - intros Hwf.
    assert (G : wf (filter (passes args) tbl)).
    { revert Hwf. unfold wf, ids. induction tbl as [|r l IH]; cbn [filter map]; intros Hs.
      - constructor.
      - inversion Hs as [|? ? Hs' Hall]; subst.
        destruct (passes args r); cbn [map]; [|now apply IH].
        constructor; [now apply IH|].
        rewrite Forall_forall in *. intros x Hx. apply Hall.
        rewrite in_map_iff in *. destruct Hx as [y [<- Hy]].
        apply filter_In in Hy. exists y. tauto. }
    split; [exact G | now apply sorted_NoDup].
Qed.

Lemma listed_drinks_are_stored_witness :
  incl [coffee; cocoa] catalog /\ wf [coffee; cocoa] /\ NoDup (ids [coffee; cocoa]).
Proof.
  destruct (@listed_drinks_are_stored [("name", "co")] catalog catalog
                                      [coffee; cocoa] eq_refl) as [H1 H2].
  split; [exact H1|]. apply H2. repeat constructor.
Defined.

(** X20. Once a [DELETE] has answered 204, no listing shows a drink under the
    deleted id, whatever its parameters. *)
Theorem deleted_drink_is_never_listed (k : Z) (args : MultiDict)
        (tbl tbl' tbl'' : Table) (drinks : list DrinkService) :
  serve (delete_drink k) tbl = (Response 204 (Text EmptyString), tbl') ->
  serve (filter_drinks args) tbl' =
    (Response 200 (jsonify (JArr (map serialize drinks))), tbl'') ->
  forall d, In d drinks -> id d <> k.
Proof.
  rewrite delete_drink_serve. destruct (lookup k tbl) as [x|]; [|discriminate].
  intros H. injection H as <-. intros H d Hd.
  apply filter_drinks_listed in H. subst drinks.
  apply filter_In in Hd. destruct Hd as [Hd _].
  now apply in_delete_rows in Hd.
Qed.

Lemma deleted_drink_is_never_listed_witness : id cocoa <> 2.
Proof.
  apply (@deleted_drink_is_never_listed 2 [("name", "co")] catalog [tea; cocoa]
                                        [tea; cocoa] [cocoa]);
    [reflexivity | reflexivity | now left].
Defined.

(** ** The order of the checks in [update_drink] *)


